(** * mson: annotation-driven decoding of JSON documents into struct fields

    A shallow embedding of the Go package [mson] (tokenizer, coercion helpers,
    option dispatcher [processTag], field resolver [processField] and the
    entry point [Unmarshal]) together with the properties its specification
    states about them.

    Go strings are byte sequences, modelled by [string] (a list of [ascii]
    bytes).  A function that can return an [error] or raise a run-time panic
    returns an [outcome]. *)

From Stdlib Require Import ZArith String Ascii List Bool Lia Floats.
From stdpp Require Import base option gmap strings.
Import ListNotations.

Local Open Scope string_scope.
Local Open Scope Z_scope.

(** ** Bytes and strings *)

Module GoString.

(** The byte [0x22], the double quote. *)
Definition dquote : ascii := "034"%char.

Definition byte (n : nat) : ascii := ascii_of_nat n.

Definition bytes (l : list nat) : string :=
  fold_right (fun n s => String (byte n) s) EmptyString l.

Definition len (s : string) : nat := String.length s.

(** [s[lo:hi]]; Go panics when the bounds are out of order or past the end
    of the string, which is [None] here. *)
Definition slice (s : string) (lo hi : nat) : option string :=
  if (lo <=? hi)%nat && (hi <=? len s)%nat
  then Some (substring lo (hi - lo) s)
  else None.

Fixpoint rev (s : string) : string :=
  match s with
  | EmptyString => EmptyString
  | String c r => rev r ++ String c EmptyString
  end.

(** [dropPrefix p s] is [Some r] when [s = p ++ r]. *)
Fixpoint dropPrefix (p s : string) : option string :=
  match p, s with
  | EmptyString, _ => Some s
  | String a p', String b s' => if Ascii.eqb a b then dropPrefix p' s' else None
  | String _ _, EmptyString => None
  end.

(** The UTF-8 encodings of the runes for which [unicode.IsSpace] holds:
    tab, line feed, vertical tab, form feed, carriage return, space,
    U+0085, U+00A0, U+1680, U+2000 to U+200A, U+2028, U+2029, U+202F,
    U+205F and U+3000. *)
Definition spaceRunes : list string :=
  map bytes
    [ [9]; [10]; [11]; [12]; [13]; [32];
      [194; 133]; [194; 160]; [225; 154; 128];
      [226; 128; 128]; [226; 128; 129]; [226; 128; 130]; [226; 128; 131];
      [226; 128; 132]; [226; 128; 133]; [226; 128; 134]; [226; 128; 135];
      [226; 128; 136]; [226; 128; 137]; [226; 128; 138];
      [226; 128; 168]; [226; 128; 169]; [226; 128; 175];
      [226; 129; 159]; [227; 128; 128] ]%nat.

(** Remove one white-space rune from the front of [s], if there is one. *)
Fixpoint stripOne (runes : list string) (s : string) : option string :=
  match runes with
  | [] => None
  | r :: runes' =>
      match dropPrefix r s with
      | Some rest => Some rest
      | None => stripOne runes' s
      end
  end.

Fixpoint trimLeftWith (runes : list string) (fuel : nat) (s : string) : string :=
  match fuel with
  | O => s
  | S fuel' =>
      match stripOne runes s with
      | Some rest => trimLeftWith runes fuel' rest
      | None => s
      end
  end.

(** [strings.TrimLeftFunc(s, unicode.IsSpace)]: every rune removed is at
    least one byte long, so [len s] rounds are enough. *)
Definition TrimLeft (s : string) : string :=
  trimLeftWith spaceRunes (len s) s.

(** [strings.TrimRightFunc(s, unicode.IsSpace)]: the last rune is decoded by
    walking back to the nearest rune start, which for the encodings above is
    the same as matching them as suffixes. *)
Definition TrimRight (s : string) : string :=
  rev (trimLeftWith (map rev spaceRunes) (len s) (rev s)).

(** [strings.TrimSpace]. *)
Definition TrimSpace (s : string) : string := TrimRight (TrimLeft s).

(** Whether a string starts, or ends, with a white-space rune. *)
Definition leadingSpace (s : string) : bool :=
  match stripOne spaceRunes s with
  | Some _ => true
  | None => false
  end.

Definition trailingSpace (s : string) : bool :=
  match stripOne (map rev spaceRunes) (rev s) with
  | Some _ => true
  | None => false
  end.

Definition nonEmpty (s : string) : Prop := (0 < len s)%nat.

(** Whether a byte occurs in a string. *)
Fixpoint hasByte (c : ascii) (s : string) : bool :=
  match s with
  | EmptyString => false
  | String b r => Ascii.eqb b c || hasByte c r
  end.

End GoString.

Import GoString.

(** ** The quoted-aware tokenizer *)

Module Tokenizer.

(** The loop body of [splitIgnoreQuoted]: [rest] is [s[i:]], so that its
    head is [s[i]]; [parts], [start], [end_] and [inQuotes] are the
    function's local variables.  [trim] is [strings.TrimSpace] in the
    current revision and the identity in the first one. *)
Fixpoint splitLoop (trim : string -> string) (s : string) (sep : ascii)
    (rest : string) (i : nat)
    (parts : list string) (start end_ : nat) (inQuotes : bool)
    : option (list string) :=
  match rest with
  | EmptyString =>
      tok ← slice s start end_;
      Some (parts ++ [trim tok])%list
  | String c rest' =>
      if Ascii.eqb c dquote then
        splitLoop trim s sep rest' (S i) parts start (S i) (negb inQuotes)
      else if Ascii.eqb c sep then
        if negb inQuotes then
          tok ← slice s start end_;
          splitLoop trim s sep rest' (S i) (parts ++ [trim tok])%list (S i) (S i) inQuotes
        else
          splitLoop trim s sep rest' (S i) parts start (S i) inQuotes
      else
        splitLoop trim s sep rest' (S i) parts start (S i) inQuotes
  end.

(** [splitIgnoreQuoted(s, sep)] of util.go (with [strings.TrimSpace]). *)
Definition splitIgnoreQuoted (s : string) (sep : ascii) : option (list string) :=
  splitLoop TrimSpace s sep s 0 [] 0 0 false.

(** The first revision of the function, which does not trim. *)
Definition splitIgnoreQuotedRaw (s : string) (sep : ascii) : option (list string) :=
  splitLoop (fun t => t) s sep s 0 [] 0 0 false.

(** The tokenizer as the specification words it: scan left to right with an
    inside-quotes flag and the token read so far; a quote toggles the flag
    and stays in the token; a delimiter outside quotes ends the token. *)
Fixpoint scan (sep : ascii) (rest : string) (inQuotes : bool) (tok : string)
    : list string :=
  match rest with
  | EmptyString => [tok]
  | String c rest' =>
      if Ascii.eqb c dquote then
        scan sep rest' (negb inQuotes) (tok ++ String c EmptyString)
      else if Ascii.eqb c sep && negb inQuotes then
        tok :: scan sep rest' inQuotes EmptyString
      else
        scan sep rest' inQuotes (tok ++ String c EmptyString)
  end.

Definition tokens (sep : ascii) (s : string) : list string :=
  scan sep s false EmptyString.

(** The number of delimiters of [rest] that lie outside quotes. *)
Fixpoint unquotedSeps (sep : ascii) (rest : string) (inQuotes : bool) : nat :=
  match rest with
  | EmptyString => O
  | String c rest' =>
      if Ascii.eqb c dquote then unquotedSeps sep rest' (negb inQuotes)
      else if Ascii.eqb c sep && negb inQuotes
           then S (unquotedSeps sep rest' inQuotes)
           else unquotedSeps sep rest' inQuotes
  end.

(** [strings.Join(l, sep)]. *)
Fixpoint join (sep : ascii) (l : list string) : string :=
  match l with
  | [] => EmptyString
  | [t] => t
  | t :: l' => t ++ String sep (join sep l')
  end.

End Tokenizer.

(** ** Run-time types and values *)

Module Reflect.

(** [reflect.Type], restricted to the types the decoder meets: the scalar
    kinds of decoded JSON, [interface{}], slices, maps, pointers, and struct
    types by name ([time.Time], [reflect.Value], ...). *)
Inductive rtype : Type :=
| TBool
| TInt
| TInt64
| TFloat64
| TString
| TInterface
| TSlice (elem : rtype)
| TMap (key elem : rtype)
| TPtr (elem : rtype)
| TStruct (name : string).

#[global] Instance rtype_eq_dec : EqDecision rtype.
Proof. solve_decision. Defined.

(** [reflect.Kind]. *)
Inductive kind : Type :=
| Bool | Int | Int64 | Float64 | String_ | Interface | Slice | Map | Ptr | Struct.

Definition Kind (t : rtype) : kind :=
  match t with
  | TBool => Bool
  | TInt => Int
  | TInt64 => Int64
  | TFloat64 => Float64
  | TString => String_
  | TInterface => Interface
  | TSlice _ => Slice
  | TMap _ _ => Map
  | TPtr _ => Ptr
  | TStruct _ => Struct
  end.

(** A [time.Time] produced by the [time] package (its location is set). *)
Record Time : Type := { unixSec : Z; unixNsec : Z }.

(** What an [interface{}] holds during decoding.  [VNil] is the nil
    interface; [VInt] is a Go [int] (64 bits wide) and [VInt64] an [int64];
    [VSlice] and [VMap] are the non-nil [[]interface{}] and
    [map[string]interface{}] of decoded JSON; [VValue v] is a
    [reflect.Value] wrapping [v], and [VType t] a [reflect.Type]; [VStruct]
    is a value of a struct type of which only zero-ness is recorded. *)
#[warnings="-register-all"]
Inductive value : Type :=
| VNil
| VBool (b : bool)
| VInt (n : Z)
| VInt64 (n : Z)
| VFloat64 (f : float)
| VString (s : string)
| VSlice (elems : list value)
| VMap (entries : gmap string value)
| VTime (t : Time)
| VValue (v : value)
| VType (t : rtype)
| VStruct (name : string) (zero : bool).

(** The dynamic type of an interface value: [reflect.ValueOf(v).Type()].
    [reflect.ValueOf(nil)] is the invalid [Value], which has no type. *)
Definition typeOf (v : value) : option rtype :=
  match v with
  | VNil => None
  | VBool _ => Some TBool
  | VInt _ => Some TInt
  | VInt64 _ => Some TInt64
  | VFloat64 _ => Some TFloat64
  | VString _ => Some TString
  | VSlice _ => Some (TSlice TInterface)
  | VMap _ => Some (TMap TString TInterface)
  | VTime _ => Some (TStruct "time.Time")
  | VValue _ => Some (TStruct "reflect.Value")
  | VType _ => Some (TPtr (TStruct "reflect.rtype"))
  | VStruct name _ => Some (TStruct name)
  end.

(** [reflect.ValueOf(v).IsZero()]; [None] is the panic of [IsZero] on the
    invalid [Value].  A float is zero when it compares equal to 0. *)
Definition IsZero (v : value) : option bool :=
  match v with
  | VNil => None
  | VBool b => Some (negb b)
  | VInt n | VInt64 n => Some (n =? 0)
  | VFloat64 f => Some (PrimFloat.eqb f 0%float)
  | VString s => Some (Nat.eqb (len s) 0)
  | VSlice _ | VMap _ | VTime _ | VValue _ | VType _ => Some false
  | VStruct _ zero => Some zero
  end.

(** What a settable field holds: a nil (pointer, slice, map or interface), a
    pointer to a further cell, or a value. *)
Inductive content : Type :=
| CNil
| CPtr (c : content)
| CVal (v : value).

(** A destination field: [reflect.Value] of a struct field, by its static
    type and what it holds. *)
Record Field : Type := { ftype : rtype; fcontent : content }.

(** [reflect.Zero(t)]. *)
Definition Zero (t : rtype) : content :=
  match t with
  | TBool => CVal (VBool false)
  | TInt => CVal (VInt 0)
  | TInt64 => CVal (VInt64 0)
  | TFloat64 => CVal (VFloat64 0%float)
  | TString => CVal (VString EmptyString)
  | TStruct name => CVal (VStruct name true)
  | TInterface | TSlice _ | TMap _ _ | TPtr _ => CNil
  end.

(** [field.Set(reflect.Zero(field.Type()))]. *)
Definition setZero (field : Field) : Field :=
  {| ftype := ftype field; fcontent := Zero (ftype field) |}.

(** [stripPointer(field)] walks the pointer layers of the field and
    allocates those that are nil.  The walk changes the field; the value it
    returns is the cell at the end of the chain, of type [innerType], read
    with [innerContent] and written with [setInner]. *)
Fixpoint allocate (t : rtype) (c : content) : content :=
  match t with
  | TPtr e => CPtr (allocate e (match c with CPtr c' => c' | _ => Zero e end))
  | _ => c
  end.

Definition stripPointer (field : Field) : Field :=
  {| ftype := ftype field; fcontent := allocate (ftype field) (fcontent field) |}.

Fixpoint innerType (t : rtype) : rtype :=
  match t with
  | TPtr e => innerType e
  | _ => t
  end.

Fixpoint innerContent (t : rtype) (c : content) : content :=
  match t, c with
  | TPtr e, CPtr c' => innerContent e c'
  | _, _ => c
  end.

Fixpoint setInnerContent (t : rtype) (c : content) (new : content) : content :=
  match t, c with
  | TPtr e, CPtr c' => CPtr (setInnerContent e c' new)
  | _, _ => new
  end.

(** [inner.IsZero()] on the cell at the end of the pointer chain. *)
Definition innerIsZero (field : Field) : bool :=
  match innerContent (ftype field) (fcontent field) with
  | CNil => true
  | CPtr _ => false
  | CVal v =>
      match innerType (ftype field) with
      | TInterface => false
      | _ => match IsZero v with Some b => b | None => true end
      end
  end.

(** Whether a value of dynamic type [vt] can be stored in a cell of type
    [t]: the types are the same, or the cell is an [interface{}]. *)
Definition assignable (vt t : rtype) : bool :=
  bool_decide (vt = t) || bool_decide (t = TInterface).

(** [inner.Set(reflect.ValueOf(v))]: [None] is the panic of [Set], raised
    for the invalid [Value] and for a value that is not assignable. *)
Definition setInner (field : Field) (v : value) : option Field :=
  vt ← typeOf v;
  if assignable vt (innerType (ftype field))
  then Some {| ftype := ftype field;
               fcontent := setInnerContent (ftype field) (fcontent field) (CVal v) |}
  else None.

End Reflect.

Import Reflect.

(** ** Number parsing and 64-bit arithmetic *)

Module Strconv.

Definition minInt64 : Z := - 2 ^ 63.
Definition maxInt64 : Z := 2 ^ 63 - 1.

(** Two's-complement wrap-around of [int64] arithmetic. *)
Definition wrap64 (z : Z) : Z := (z + 2 ^ 63) mod 2 ^ 64 - 2 ^ 63.

Definition digit (c : ascii) : option Z :=
  let n := Z.of_nat (nat_of_ascii c) in
  if (48 <=? n) && (n <=? 57) then Some (n - 48) else None.

Fixpoint digitsFrom (acc : Z) (s : string) : option Z :=
  match s with
  | EmptyString => Some acc
  | String c r => d ← digit c; digitsFrom (acc * 10 + d) r
  end.

(** A non-empty run of decimal digits, as its value. *)
Definition parseDigits (s : string) : option Z :=
  match s with
  | EmptyString => None
  | _ => digitsFrom 0 s
  end.

(** [strconv.ParseInt(s, 10, 64)]: an optional sign and decimal digits, in
    the range of [int64]; [None] when it returns an error. *)
Definition ParseInt (s : string) : option Z :=
  match s with
  | EmptyString => None
  | String c r =>
      if Ascii.eqb c "+"%char then
        n ← parseDigits r; if n <=? maxInt64 then Some n else None
      else if Ascii.eqb c "-"%char then
        n ← parseDigits r; if n <=? 2 ^ 63 then Some (- n) else None
      else
        n ← parseDigits s; if n <=? maxInt64 then Some n else None
  end.

(** [strconv.Atoi(s)], with [int] 64 bits wide. *)
Definition Atoi (s : string) : option Z := ParseInt s.

(** [strconv.ParseUint(s, 10, 8)]: decimal digits without a sign, at most
    255. *)
Definition ParseUint8 (s : string) : option nat :=
  n ← parseDigits s; if n <=? 255 then Some (Z.to_nat n) else None.

(** The conversion [float64(n)] of an integer: the nearest double, ties to
    even. *)
Definition ofInt (n : Z) : float :=
  SF2Prim (binary_normalize prec emax n 0 false).



End Strconv.

Import Strconv.

(** ** Results *)

(** The ordinary errors the package returns, by the message they format. *)
Inductive error : Type :=
| ErrConversion (fieldName target : string)
| ErrNotASlice (fieldName : string) (k : kind)
| ErrNotAMap (fieldName : string) (k : kind)
| ErrAlreadyString (fieldName : string)
| ErrNotString (fieldName : string)
| ErrUnquoting (fieldName : string)
| ErrNotANumber (fieldName : string)
| ErrInvalidArgument (option arg : string)
| ErrJSON.

(** The panics the package raises, and the run-time panics it can run into. *)
Inductive panic : Type :=
| UnknownTagOption (name : string)
| InvalidEmptyFunction (name : string)
| UnknownNumericalOperation (name : string)
| RequiresArgument (name : string)
| IntegerDivideByZero
| IndexOutOfRange
| ReflectPanic (method : string).

(** How a call ends: it returns a value, returns an [error], or panics. *)
Inductive outcome (A : Type) : Type :=
| Ok (a : A)
| Err (e : error)
| Panic (p : panic).

Arguments Ok {A} a.
Arguments Err {A} e.
Arguments Panic {A} p.

(** ** The libraries the package calls

    Functions of the Go standard library whose results the package passes on:
    number and literal parsing, formatting, the JSON decoder, case folding,
    the float to integer conversion, rounding, the clock, and method lookup
    by name. *)

(** What [reflect.Value.MethodByName(name)] finds on a value, as the [empty]
    option uses it: no method with no parameter and one boolean result, a
    call that panics, or the boolean the call returns. *)
Inductive method : Type :=
| NoBoolMethod
| MethodPanics
| MethodReturns (b : bool).

Record Library : Type := {
  (** [strconv.ParseFloat(s, 64)], [None] when it returns an error *)
  ParseFloat : string -> option float;
  (** [strconv.Unquote(s)], [None] when it returns an error *)
  Unquote : string -> option string;
  (** [fmt.Sprint(v)], the same text as [fmt.Sprintf] with the verb v *)
  Sprint : value -> string;
  (** [json.Unmarshal] of a text into an [interface{}] *)
  JSONValue : string -> option value;
  (** [json.Unmarshal] of the input into a [map[string]interface{}] *)
  JSONObject : string -> option (gmap string value);
  (** [strings.ToLower] *)
  ToLower : string -> string;
  (** the conversion [int64(f)] *)
  Float64ToInt64 : float -> Z;
  (** [math.Round], [math.Floor], [math.Ceil] *)
  Round : float -> float;
  Floor : float -> float;
  Ceil : float -> float;
  (** [time.Now().Add(d)], [time.Unix(sec, nsec)], [time.UnixMilli(ms)] *)
  NowAdd : Z -> Time;
  TimeUnix : Z -> Z -> Time;
  TimeUnixMilli : Z -> Time;
  (** [reflect.ValueOf(v).MethodByName(name)] and its call *)
  MethodByName : value -> string -> method
}.

#[global] Instance outcome_ret : MRet outcome := fun _ a => Ok a.

#[global] Instance outcome_bind : MBind outcome := fun _ _ f m =>
  match m with
  | Ok a => f a
  | Err e => Err e
  | Panic p => Panic p
  end.

(** ** Coercion helpers (util.go) *)

Module Util.
Section WithLibrary.

Context (L : Library).

(** [parseDuration(value, unit)]: a [time.Duration] in nanoseconds. *)
Definition parseDuration (value unit : string) : option Z :=
  seconds ← ParseFloat L value;
  if String.eqb unit "nanoseconds" then
    Some (Float64ToInt64 L seconds)
  else if String.eqb unit "microseconds" then
    Some (Float64ToInt64 L (seconds * 1000)%float)
  else if String.eqb unit "milliseconds" then
    Some (Float64ToInt64 L (seconds * 1000000)%float)
  else if String.eqb unit "minutes" then
    Some (Float64ToInt64 L (seconds * 60000000000)%float)
  else if String.eqb unit "hours" then
    Some (Float64ToInt64 L (seconds * 3600000000000)%float)
  else
    Some (Float64ToInt64 L (seconds * 1000000000)%float).

(** [parseTime(value, unit)]. *)
Definition parseTime (value unit : string) : option Time :=
  unixTime ← ParseFloat L value;
  if String.eqb unit "nanoseconds" then
    Some (TimeUnix L 0 (Float64ToInt64 L unixTime))
  else if String.eqb unit "microseconds" then
    Some (TimeUnix L 0 (Float64ToInt64 L (unixTime * 1000)%float))
  else if String.eqb unit "milliseconds" then
    Some (TimeUnixMilli L (Float64ToInt64 L unixTime))
  else if String.eqb unit "minutes" then
    Some (TimeUnix L (Float64ToInt64 L (unixTime * 60)%float) 0)
  else if String.eqb unit "hours" then
    Some (TimeUnix L (Float64ToInt64 L (unixTime * 3600)%float) 0)
  else
    Some (TimeUnix L (Float64ToInt64 L unixTime) 0).

(** [compareInterfaceValue(value, arg)]: a type switch on the value. *)
Definition compareInterfaceValue (value : value) (arg : string) : bool :=
  match value with
  | VBool v => (String.eqb arg "true" && v) || (String.eqb arg "false" && negb v)
  | VInt v =>
      match Atoi arg with
      | Some argInt => v =? argInt
      | None => false
      end
  | VFloat64 v =>
      match ParseFloat L arg with
      | Some argFloat => PrimFloat.eqb v argFloat
      | None => false
      end
  | _ => false
  end.

(** [containsOption(options, target)]. *)
Fixpoint containsOption (options : list string) (target : string) : bool :=
  match options with
  | [] => false
  | option :: options' =>
      if String.eqb option target then true else containsOption options' target
  end.

(** The operators [performArithmeticOperation] selects by name. *)
Inductive operator : Type := OpAdd | OpSubtract | OpMultiply | OpDivide.

Definition operatorOf (name : string) : option operator :=
  if String.eqb name "add" then Some OpAdd
  else if String.eqb name "subtract" then Some OpSubtract
  else if String.eqb name "multiply" then Some OpMultiply
  else if String.eqb name "divide" then Some OpDivide
  else None.

(** [op1]: the operator on [int64], which wraps around; the division
    truncates towards zero and panics on a zero divisor. *)
Definition op1 (o : operator) (a b : Z) : outcome Z :=
  match o with
  | OpAdd => Ok (wrap64 (a + b))
  | OpSubtract => Ok (wrap64 (a - b))
  | OpMultiply => Ok (wrap64 (a * b))
  | OpDivide => if b =? 0 then Panic IntegerDivideByZero else Ok (wrap64 (a ÷ b))
  end.


(** [op2]: the operator on [float64]. *)
Definition op2 (o : operator) (a b : float) : float :=
  match o with
  | OpAdd => (a + b)%float
  | OpSubtract => (a - b)%float
  | OpMultiply => (a * b)%float
  | OpDivide => (a / b)%float
  end.

(** [performArithmeticOperation(value, parts, inverted, fieldName)]. *)
Definition performArithmeticOperation (value : value) (parts : list string)
    (inverted : bool) (fieldName : string) : outcome Reflect.value :=
  match parts with
  | [] => Panic IndexOutOfRange
  | name :: args =>
      match operatorOf name with
      | None => Panic (UnknownNumericalOperation name)
      | Some o =>
          match args with
          | [] => Panic (RequiresArgument name)
          | arg :: _ =>
              match ParseInt arg with
              | Some conv =>
                  match value with
                  | VInt v => r ← op1 o v conv; Ok (VInt64 r)
                  | VFloat64 v => Ok (VFloat64 (op2 o v (ofInt conv)))
                  | _ => Err (ErrNotANumber fieldName)
                  end
              | None =>
                  match ParseFloat L arg with
                  | Some conv =>
                      match value with
                      | VInt v => Ok (VFloat64 (op2 o (ofInt v) conv))
                      | VFloat64 v => Ok (VFloat64 (op2 o v conv))
                      | _ => Err (ErrNotANumber fieldName)
                      end
                  | None => Err (ErrInvalidArgument name arg)
                  end
              end
          end
      end
  end.

Definition roundingOf (name : string) : option (float -> float) :=
  if String.eqb name "round" then Some (Round L)
  else if String.eqb name "floor" then Some (Floor L)
  else if String.eqb name "ceil" then Some (Ceil L)
  else None.

Definition shiftDown (places : nat) (v : float) : float :=
  Nat.iter places (fun x => (x / 10)%float) v.

Definition shiftUp (places : nat) (v : float) : float :=
  Nat.iter places (fun x => (x * 10)%float) v.

(** [performNumericalOperation(value, parts, inverted, fieldName)].  For a
    [float64] and no places the function first assigns the rounded integer
    to [value] and then, after the conditional, assigns [v] again, which
    that branch has left as it was. *)
Definition performNumericalOperation (value : value) (parts : list string)
    (inverted : bool) (fieldName : string) : outcome Reflect.value :=
  match parts with
  | [] => Panic IndexOutOfRange
  | name :: args =>
      match roundingOf name with
      | None => Panic (UnknownNumericalOperation name)
      | Some op =>
          places ← match args with
                   | [] => Ok 0%nat
                   | arg :: _ =>
                       match ParseUint8 arg with
                       | Some p => Ok p
                       | None => Err (ErrInvalidArgument "round" arg)
                       end
                   end;
          match value with
          | VFloat64 v =>
              let v' :=
                if Nat.eqb places 0 then v
                else if inverted then shiftUp places (op (shiftDown places v))
                else shiftDown places (op (shiftUp places v)) in
              Ok (VFloat64 v')
          | VInt v =>
              if inverted && negb (Nat.eqb places 0)
              then Ok (VFloat64 (shiftUp places (op (shiftDown places (ofInt v)))))
              else Ok (VInt v)
          | _ => Err (ErrNotANumber fieldName)
          end
      end
  end.

End WithLibrary.
End Util.

Import Util.

(** ** The option dispatcher and the field resolver (mson.go) *)

Module Mson.
Section WithLibrary.

Context (L : Library).

(** The last byte of a string, and the string without it. *)
Fixpoint lastByte (s : string) : option ascii :=
  match s with
  | EmptyString => None
  | String c EmptyString => Some c
  | String _ r => lastByte r
  end.

Fixpoint dropLast (s : string) : string :=
  match s with
  | EmptyString => EmptyString
  | String _ EmptyString => EmptyString
  | String c r => String c (dropLast r)
  end.

(** [len(parts[0]) > 0 && rune(parts[0][len(parts[0])-1]) == '!']. *)
Definition endsWithBang (name : string) : bool :=
  match lastByte name with
  | Some c => Ascii.eqb c "!"%char
  | None => false
  end.

(** The local variables [inverted] and [modified] of the loop body: both
    are declared with their zero values and assigned only when the name ends
    with the negation marker. *)
Definition invertedOf (name : string) : bool := endsWithBang name.

Definition modifiedOf (name : string) : string :=
  if endsWithBang name then dropLast name else EmptyString.

(** What one round of the loop over the options does: it goes on with a
    new current value, resets the field and returns nil, returns an error,
    or panics. *)
Inductive step : Type :=
| Continue (value : value)
| ClearAndStop
| Fail (e : error)
| Abort (p : panic).

Definition unitOf (args : list string) : string :=
  match args with
  | unit :: _ => unit
  | [] => "seconds"
  end.

Definition ofOutcome (o : outcome value) : step :=
  match o with
  | Ok v => Continue v
  | Err e => Fail e
  | Panic p => Abort p
  end.

(** The [switch modified] of [processTag]: [inner] is the cell
    [stripPointer(field)] returned, [parts] the option split at commas. *)
Definition dispatch (field : Field) (value : value) (modified : string)
    (inverted : bool) (name : string) (args : list string)
    (fieldName : string) : step :=
  let inner := innerType (ftype field) in
  if String.eqb modified "duration" then
    match parseDuration L (Sprint L value) (unitOf args) with
    | None => Fail (ErrConversion fieldName "time.Duration")
    | Some duration =>
        if inverted then Continue (VTime (NowAdd L duration))
        else Continue (VInt64 duration)
    end
  else if String.eqb modified "unix" then
    match parseTime L (Sprint L value) (unitOf args) with
    | None => Fail (ErrConversion fieldName "time.Time")
    | Some t => Continue (VValue (VTime t))
    end
  else if String.eqb modified "nilslice" then
    match value with
    | VNil =>
        if negb inverted then
          match inner with
          | TSlice elem => Continue (VType (TSlice elem))
          | _ => Fail (ErrNotASlice fieldName (Kind inner))
          end
        else Continue value
    | VSlice [] => if inverted then Continue VNil else Continue value
    | _ => Continue value
    end
  else if String.eqb modified "nilmap" then
    match value with
    | VNil =>
        if negb inverted then
          match inner with
          | TMap key elem => Continue (VType (TMap key elem))
          | _ => Fail (ErrNotAMap fieldName (Kind inner))
          end
        else Continue value
    | VMap entries =>
        if inverted && Nat.eqb (size entries) 0 then Continue VNil else Continue value
    | _ => Continue value
    end
  else if String.eqb modified "equals" then
    match args with
    | quoted :: _ =>
        let arg := match Unquote L quoted with Some a => a | None => quoted end in
        Continue (VValue (VBool (eqb (compareInterfaceValue L value arg) (negb inverted))))
    | [] => Continue (VValue (VBool (eqb (innerIsZero field) (negb inverted))))
    end
  else if String.eqb modified "contains" then
    Continue (VBool true)
  else if String.eqb modified "empty" then
    let empty : outcome bool :=
      match args with
      | methodName :: _ =>
          match value with
          | VNil => Panic (ReflectPanic "MethodByName")
          | _ =>
              match MethodByName L value methodName with
              | NoBoolMethod => Panic (InvalidEmptyFunction methodName)
              | MethodPanics => Panic (ReflectPanic "Call")
              | MethodReturns b => Ok b
              end
          end
      | [] =>
          match IsZero value with
          | Some b => Ok b
          | None => Panic (ReflectPanic "IsZero")
          end
      end in
    match empty with
    | Ok empty =>
        if (empty && negb inverted) || (negb empty && inverted)
        then ClearAndStop
        else Continue value
    | Err e => Fail e
    | Panic p => Abort p
    end
  else if String.eqb modified "fromstring" then
    match value with
    | VString strValue =>
        if inverted then Fail (ErrAlreadyString fieldName)
        else
          match JSONValue L strValue with
          | Some decoded => Continue decoded
          | None => Fail (ErrUnquoting fieldName)
          end
    | _ =>
        if negb inverted then Fail (ErrNotString fieldName)
        else Continue (VString (Sprint L value))
    end
  else if String.eqb modified "add" || String.eqb modified "subtract"
          || String.eqb modified "multiply" || String.eqb modified "divide" then
    ofOutcome (performArithmeticOperation L value (name :: args) inverted fieldName)
  else if String.eqb modified "round" || String.eqb modified "floor"
          || String.eqb modified "ceil" then
    ofOutcome (performNumericalOperation L value (name :: args) inverted fieldName)
  else
    Abort (UnknownTagOption name).

(** One round of the loop: split the option, compute [inverted] and
    [modified], and dispatch. *)
Definition applyOption (field : Field) (value : value) (opt : string)
    (fieldName : string) : step :=
  match Tokenizer.splitIgnoreQuoted opt ","%char with
  | Some (name :: args) =>
      dispatch field value (modifiedOf name) (invertedOf name) name args fieldName
  | Some [] => Abort IndexOutOfRange
  | None => Abort IndexOutOfRange
  end.

(** The loop of [processTag] over the options, and the assignment
    [inner.Set(reflect.ValueOf(value))] after it.  The result is the field
    as the call leaves it and how the call ends. *)
Fixpoint processOptions (field : Field) (value : value) (options : list string)
    (fieldName : string) : Field * outcome unit :=
  match options with
  | [] =>
      match setInner field value with
      | Some field' => (field', Ok tt)
      | None => (field, Panic (ReflectPanic "Set"))
      end
  | opt :: options' =>
      match applyOption field value opt fieldName with
      | Continue value' => processOptions field value' options' fieldName
      | ClearAndStop => (setZero field, Ok tt)
      | Fail e => (field, Err e)
      | Abort p => (field, Panic p)
      end
  end.

(** [processTag(field, value, options, fieldName)]. *)
Definition processTag (field : Field) (value : value) (options : list string)
    (fieldName : string) : Field * outcome unit :=
  processOptions (stripPointer field) value options fieldName.

(** [reflect.StructField], as far as the decoder reads it: the field's
    name, the value of its json tag, and whether the field can be set. *)
Record StructField : Type := { Name : string; jsonTag : string; canSet : bool }.

(** The local variable [fieldName] of [processField]: the first part of
    the tag, or the name of the struct field when that part is empty or
    an underscore. *)
Definition fieldNameOf (metaData : StructField) (tag0 : string) : string :=
  if String.eqb tag0 EmptyString then Name metaData
  else if String.eqb tag0 "_" then Name metaData
  else tag0.

(** [processField(field, metaData, data)]. *)
Definition processField (field : Field) (metaData : StructField)
    (data : gmap string value) : Field * outcome unit :=
  match Tokenizer.splitIgnoreQuoted (jsonTag metaData) ","%char with
  | None => (field, Panic IndexOutOfRange)
  | Some [] => (field, Ok tt)
  | Some (tag0 :: options) =>
      if String.eqb tag0 "-" then (field, Ok tt)
      else
        let fieldName := fieldNameOf metaData tag0 in
        match data !! ToLower L fieldName with
        | Some value => processTag field value options fieldName
        | None => (setZero field, Ok tt)
        end
  end.

(** The loop of [Unmarshal] that folds the keys of the document to lower
    case while it ranges over it; [order] is the sequence of keys the range
    statement produces. *)
Definition lowerKey (m : gmap string value) (k : string) : gmap string value :=
  match m !! k with
  | Some v => <[ToLower L k := v]> (delete k m)
  | None => m
  end.

Definition lowerKeys (order : list string) (m : gmap string value)
    : gmap string value :=
  fold_left lowerKey order m.

(** The loop of [Unmarshal] over the fields of the destination struct: it
    returns at the first error, and a panic ends it as well. *)
Fixpoint processFields (fields : list (StructField * Field))
    (data : gmap string value) : list (StructField * Field) * outcome unit :=
  match fields with
  | [] => ([], Ok tt)
  | (metaData, field) :: fields' =>
      if canSet metaData then
        match processField field metaData data with
        | (field', Ok _) =>
            let (rest, result) := processFields fields' data in
            ((metaData, field') :: rest, result)
        | (field', result) => ((metaData, field') :: fields', result)
        end
      else
        let (rest, result) := processFields fields' data in
        ((metaData, field) :: rest, result)
  end.

(** [Unmarshal(data, v)], with [v] a pointer to a struct with the given
    fields. *)
Definition Unmarshal (data : string) (order : list string)
    (v : list (StructField * Field)) : list (StructField * Field) * outcome unit :=
  match JSONObject L data with
  | None => (v, Err ErrJSON)
  | Some parsedData => processFields v (lowerKeys order parsedData)
  end.

End WithLibrary.

(** The names the [switch] of [processTag] has a case for. *)
Definition definedOperations : list string :=
  [ "duration"; "unix"; "nilslice"; "nilmap"; "equals"; "contains"; "empty";
    "fromstring"; "add"; "subtract"; "multiply"; "divide";
    "round"; "floor"; "ceil" ].

(** A clause name without its trailing negation marker. *)
Definition stripMarker (name : string) : string :=
  if endsWithBang name then dropLast name else name.

(** The parts of an option: the tokens between its commas, trimmed.  The
    first one is the clause name, the others are its arguments. *)
Definition optionParts (opt : string) : list string :=
  map TrimSpace (Tokenizer.tokens ","%char opt).

Definition optionName (opt : string) : string := hd EmptyString (optionParts opt).

Definition optionArgs (opt : string) : list string := tl (optionParts opt).

(** The declared name of a field and its clause chain, as [processField]
    reads them off the tag.  A field whose tag starts with a dash is left
    out of decoding and has no declared name. *)
Definition excluded (metaData : StructField) : bool :=
  String.eqb (optionName (jsonTag metaData)) "-".

Definition declaredName (metaData : StructField) : option string :=
  if excluded metaData then None
  else Some (fieldNameOf metaData (optionName (jsonTag metaData))).

Definition clauseChain (metaData : StructField) : list string :=
  optionArgs (jsonTag metaData).

End Mson.

(** ** A library for the closed examples

    The functions of [sampleLibrary] implement the Go ones on the inputs
    the examples use: decimal literals with an optional sign and fraction,
    double-quoted literals without escapes, and ASCII letters.  The other
    functions of the record play no part in the examples.  No general
    statement depends on [sampleLibrary]. *)

Module Sample.

Fixpoint beforeDot (s : string) : string :=
  match s with
  | EmptyString => EmptyString
  | String c r => if Ascii.eqb c "."%char then EmptyString else String c (beforeDot r)
  end.

Fixpoint afterDot (s : string) : option string :=
  match s with
  | EmptyString => None
  | String c r => if Ascii.eqb c "."%char then Some r else afterDot r
  end.

(** A decimal literal [digits] or [digits.digits] whose digits, read as one
    integer, stay below [2^53] and whose fraction has at most 22 digits: the
    quotient of two doubles that hold the integer and the power of ten
    exactly is the nearest double. *)
Definition parseUnsigned (s : string) : option float :=
  let whole := beforeDot s in
  let frac := match afterDot s with Some f => f | None => EmptyString end in
  match afterDot s, frac with
  | Some _, EmptyString => None
  | _, _ =>
      w ← parseDigits whole;
      m ← digitsFrom w frac;
      if (m <? 2 ^ 53) && (len frac <=? 22)%nat
      then Some (ofInt m / ofInt (10 ^ Z.of_nat (len frac)))%float
      else None
  end.

Definition parseFloat (s : string) : option float :=
  match s with
  | EmptyString => None
  | String c r =>
      if Ascii.eqb c "-"%char then f ← parseUnsigned r; Some (- f)%float
      else if Ascii.eqb c "+"%char then parseUnsigned r
      else parseUnsigned s
  end.

(** A literal between two double quotes, with no quote, backslash or line
    feed inside. *)
Definition unquote (s : string) : option string :=
  match s with
  | String c r =>
      if Ascii.eqb c dquote && Ascii.eqb (default "000"%char (Mson.lastByte r)) dquote
      then
        let body := Mson.dropLast r in
        if hasByte dquote body || hasByte "092"%char body || hasByte "010"%char body
        then None
        else Some body
      else None
  | EmptyString => None
  end.

Definition lowerByte (c : ascii) : ascii :=
  let n := nat_of_ascii c in
  if (65 <=? n)%nat && (n <=? 90)%nat then ascii_of_nat (n + 32) else c.

Fixpoint toLower (s : string) : string :=
  match s with
  | EmptyString => EmptyString
  | String c r => String (lowerByte c) (toLower r)
  end.

Definition sprint (v : value) : string :=
  match v with
  | VString s => s
  | VBool true => "true"
  | VBool false => "false"
  | _ => EmptyString
  end.

Definition sampleLibrary : Library :=
  {| ParseFloat := parseFloat;
     Unquote := unquote;
     Sprint := sprint;
     JSONValue := fun _ => None;
     JSONObject := fun _ => None;
     ToLower := toLower;
     Float64ToInt64 := fun _ => 0;
     Round := fun f => f;
     Floor := fun f => f;
     Ceil := fun f => f;
     NowAdd := fun _ => {| unixSec := 0; unixNsec := 0 |};
     TimeUnix := fun sec nsec => {| unixSec := sec; unixNsec := nsec |};
     TimeUnixMilli := fun ms => {| unixSec := ms / 1000; unixNsec := (ms mod 1000) * 1000000 |};
     MethodByName := fun _ _ => NoBoolMethod |}.

End Sample.

(** ** Inputs of the closed examples *)

Module Examples.

Import Mson.

(** A text between double quotes. *)
Definition quoted (s : string) : string :=
  String dquote (s ++ String dquote EmptyString).

(** A field [Expiry] whose tag names it [expiry] and gives it clauses. *)
Definition expiryField : StructField :=
  {| Name := "Expiry"; jsonTag := "expiry,duration!,bogus"; canSet := true |}.

(** The same field with a single clause, of no defined name. *)
Definition bogusField : StructField :=
  {| Name := "Expiry"; jsonTag := "expiry,bogus"; canSet := true |}.

(** An [int64] field that holds [n]. *)
Definition int64Field (n : Z) : Field :=
  {| ftype := TInt64; fcontent := CVal (VInt64 n) |}.

(** A [bool] field that holds false. *)
Definition boolField : Field :=
  {| ftype := TBool; fcontent := CVal (VBool false) |}.

End Examples.

(** * Properties *)

Import Tokenizer Mson Sample Examples.

(** ** Strings and trimming *)

Lemma app_cons (c : ascii) (a b : string) : String c a ++ b = String c (a ++ b).
Proof. reflexivity. Qed.

Lemma app_nil_l (b : string) : EmptyString ++ b = b.
Proof. reflexivity. Qed.

Lemma len_app (a b : string) : len (a ++ b) = (len a + len b)%nat.
Proof.
  unfold len. induction a as [|c a IH]; [reflexivity|].
  rewrite app_cons. simpl. f_equal. exact IH.
Qed.

Lemma app_assoc_s (a b c : string) : (a ++ b) ++ c = a ++ (b ++ c).
Proof.
  induction a as [|x a IH]; [reflexivity|].
  rewrite !app_cons. now rewrite IH.
Qed.

Lemma app_empty_r (a : string) : a ++ EmptyString = a.
Proof.
  induction a as [|x a IH]; [reflexivity|].
  rewrite app_cons. now rewrite IH.
Qed.

Lemma rev_app_s (a b : string) : GoString.rev (a ++ b) = GoString.rev b ++ GoString.rev a.
Proof.
  induction a as [|c a IH].
  - rewrite app_nil_l. simpl. now rewrite app_empty_r.
  - rewrite app_cons. simpl. rewrite IH. now rewrite app_assoc_s.
Qed.

Lemma rev_involutive_s (a : string) : GoString.rev (GoString.rev a) = a.
Proof.
  induction a as [|c a IH]; [reflexivity|].
  simpl. rewrite rev_app_s. simpl. now rewrite IH.
Qed.

Lemma len_rev (a : string) : len (GoString.rev a) = len a.
Proof.
  induction a as [|c a IH]; [reflexivity|].
  simpl. rewrite len_app. simpl. unfold len in *. simpl. lia.
Qed.

Lemma substring_prefix (t r : string) : substring 0 (len t) (t ++ r) = t.
Proof.
  induction t as [|c t IH].
  - rewrite app_nil_l. destruct r; reflexivity.
  - rewrite app_cons. simpl. f_equal. exact IH.
Qed.

Lemma substring_skip (p t : string) (n : nat) :
  substring (len p) n (p ++ t) = substring 0 n t.
Proof.
  induction p as [|c p IH]; [reflexivity|].
  rewrite app_cons. simpl. exact IH.
Qed.

Lemma slice_middle (p t r : string) :
  slice (p ++ t ++ r) (len p) (len p + len t) = Some t.
Proof.
  unfold slice.
  replace ((len p <=? len p + len t)%nat) with true by (symmetry; apply Nat.leb_le; lia).
  replace ((len p + len t <=? len (p ++ t ++ r))%nat) with true
    by (symmetry; apply Nat.leb_le; rewrite !len_app; lia).
  simpl. replace (len p + len t - len p)%nat with (len t) by lia.
  now rewrite substring_skip, substring_prefix.
Qed.

Lemma dropPrefix_app (r s rest : string) :
  dropPrefix r s = Some rest -> s = r ++ rest.
Proof.
  revert s; induction r as [|a r IH]; intros s H; simpl in H.
  - now inversion H.
  - destruct s as [|b s]; [discriminate|].
    destruct (Ascii.eqb a b) eqn:E; [|discriminate].
    apply Ascii.eqb_eq in E. subst b. rewrite app_cons. f_equal. now apply IH.
Qed.

Lemma dropPrefix_extend (r s rest t : string) :
  dropPrefix r s = Some rest -> dropPrefix r (s ++ t) = Some (rest ++ t).
Proof.
  revert s; induction r as [|a r IH]; intros s H; simpl in H.
  - inversion H. reflexivity.
  - destruct s as [|b s]; [discriminate|].
    rewrite app_cons. simpl.
    destruct (Ascii.eqb a b); [now apply IH|discriminate].
Qed.

Lemma stripOne_app (runes : list string) (s rest : string) :
  stripOne runes s = Some rest ->
  exists r, In r runes /\ s = r ++ rest.
Proof.
  induction runes as [|r runes IH]; simpl; [discriminate|].
  destruct (dropPrefix r s) as [q|] eqn:E.
  - intros H; inversion H; subst q. exists r. split; [now left|].
    now apply dropPrefix_app.
  - intros H. destruct (IH H) as (r' & Hin & Heq). exists r'. split; [now right|exact Heq].
Qed.

Lemma stripOne_extend (runes : list string) (s rest t : string) :
  stripOne runes s = Some rest -> exists rest', stripOne runes (s ++ t) = Some rest'.
Proof.
  induction runes as [|r runes IH]; simpl; [discriminate|].
  destruct (dropPrefix r s) as [q|] eqn:E.
  - intros _. rewrite (dropPrefix_extend _ _ _ t E). eauto.
  - intros H. destruct (dropPrefix r (s ++ t)); eauto.
Qed.

Lemma trimLeftWith_trimmed (runes : list string) :
  Forall nonEmpty runes ->
  forall fuel s, (len s <= fuel)%nat ->
    stripOne runes (trimLeftWith runes fuel s) = None.
Proof.
  intros Hne. induction fuel as [|fuel IH]; intros s Hlen; simpl.
  - destruct (stripOne runes s) as [rest|] eqn:E; [|reflexivity].
    apply stripOne_app in E. destruct E as (r & Hin & ->).
    pose proof (proj1 (List.Forall_forall _ _) Hne r Hin) as Hr.
    unfold nonEmpty in Hr. rewrite len_app in Hlen. lia.
  - destruct (stripOne runes s) as [rest|] eqn:E; [|exact E].
    apply IH. apply stripOne_app in E. destruct E as (r & Hin & ->).
    pose proof (proj1 (List.Forall_forall _ _) Hne r Hin) as Hr.
    unfold nonEmpty in Hr. rewrite len_app in Hlen. lia.
Qed.

Lemma trimLeftWith_suffix (runes : list string) :
  forall fuel s, exists removed, s = removed ++ trimLeftWith runes fuel s.
Proof.
  induction fuel as [|fuel IH]; intros s; simpl.
  - exists EmptyString. reflexivity.
  - destruct (stripOne runes s) as [rest|] eqn:E.
    + apply stripOne_app in E. destruct E as (r & _ & ->).
      destruct (IH rest) as (removed & Hrem).
      exists (r ++ removed). rewrite app_assoc_s. now rewrite <- Hrem.
    + exists EmptyString. reflexivity.
Qed.

Lemma spaceRunes_nonEmpty : Forall nonEmpty spaceRunes.
Proof. unfold nonEmpty. repeat constructor. Qed.

Lemma revSpaceRunes_nonEmpty : Forall nonEmpty (map GoString.rev spaceRunes).
Proof. unfold nonEmpty. repeat constructor. Qed.

Lemma TrimSpace_trimmed (s : string) :
  leadingSpace (TrimSpace s) = false /\ trailingSpace (TrimSpace s) = false.
Proof.
  unfold leadingSpace, trailingSpace, TrimSpace, TrimRight.
  set (a := TrimLeft s).
  set (y := trimLeftWith (map GoString.rev spaceRunes) (len a) (GoString.rev a)).
  assert (Ha : stripOne spaceRunes a = None).
  { apply trimLeftWith_trimmed; [apply spaceRunes_nonEmpty|lia]. }
  assert (Hy : stripOne (map GoString.rev spaceRunes) y = None).
  { apply trimLeftWith_trimmed; [apply revSpaceRunes_nonEmpty|rewrite len_rev; lia]. }
  split.
  - destruct (stripOne spaceRunes (GoString.rev y)) as [q|] eqn:E; [|reflexivity].
    destruct (trimLeftWith_suffix (map GoString.rev spaceRunes) (len a) (GoString.rev a))
      as (removed & Hrem).
    fold y in Hrem.
    assert (Hsplit : a = GoString.rev y ++ GoString.rev removed).
    { rewrite <- rev_app_s, <- Hrem. now rewrite rev_involutive_s. }
    destruct (stripOne_extend _ _ _ (GoString.rev removed) E) as (q' & Hq').
    rewrite <- Hsplit in Hq'. congruence.
  - rewrite rev_involutive_s. now rewrite Hy.
Qed.

(** ** The tokenizer *)

(** The loop computes the tokens of [scan]: with [pre] the text before the
    current token and [tok] the token read so far, [start] is [len pre] and
    both [i] and [end_] are [len pre + len tok]. *)
Lemma splitLoop_scan (trim : string -> string) (sep : ascii) (rest : string) :
  forall (pre tok : string) (parts : list string) (inQuotes : bool),
    splitLoop trim (pre ++ tok ++ rest) sep rest (len pre + len tok) parts
      (len pre) (len pre + len tok) inQuotes
    = Some (parts ++ map trim (scan sep rest inQuotes tok))%list.
Proof.
  induction rest as [|c rest IH]; intros pre tok parts inQuotes.
  - simpl. rewrite slice_middle. reflexivity.
  - assert (Hgrow : pre ++ tok ++ String c rest
                      = pre ++ (tok ++ String c EmptyString) ++ rest).
    { now rewrite (app_assoc_s tok). }
    assert (Hlen : S (len pre + len tok)
                   = (len pre + len (tok ++ String c EmptyString))%nat).
    { rewrite len_app. simpl. lia. }
    cbn [splitLoop scan].
    destruct (Ascii.eqb c dquote).
    + rewrite Hgrow, Hlen. apply IH.
    + destruct (Ascii.eqb c sep); cbn [andb].
      * destruct inQuotes; cbn [negb].
        -- rewrite Hgrow, Hlen. apply IH.
        -- rewrite slice_middle. cbn [mbind option_bind].
           replace (pre ++ tok ++ String c rest)
             with ((pre ++ tok ++ String c EmptyString) ++ EmptyString ++ rest)
             by (now rewrite !app_assoc_s).
           replace (S (len pre + len tok))
             with (len (pre ++ tok ++ String c EmptyString) + len EmptyString)%nat
             by (rewrite !len_app; simpl; lia).
           replace (len (pre ++ tok ++ String c EmptyString) + len EmptyString)%nat
             with (len (pre ++ tok ++ String c EmptyString)) at 2
             by (simpl; lia).
           rewrite IH. cbn [map]. now rewrite <- app_assoc.
      * rewrite Hgrow, Hlen. apply IH.
Qed.

Lemma scan_nonempty (sep : ascii) (rest : string) :
  forall inQuotes tok, scan sep rest inQuotes tok <> [].
Proof.
  induction rest as [|c rest IH]; intros inQuotes tok; simpl; [discriminate|].
  destruct (Ascii.eqb c dquote); [apply IH|].
  destruct (Ascii.eqb c sep && negb inQuotes); [discriminate|apply IH].
Qed.

Lemma join_cons (sep : ascii) (t : string) (l : list string) :
  l <> [] -> join sep (t :: l) = t ++ String sep (join sep l).
Proof. destruct l; [congruence|reflexivity]. Qed.

Lemma join_scan (sep : ascii) (rest : string) :
  forall inQuotes tok, join sep (scan sep rest inQuotes tok) = tok ++ rest.
Proof.
  induction rest as [|c rest IH]; intros inQuotes tok; simpl.
  - now rewrite app_empty_r.
  - destruct (Ascii.eqb c dquote).
    { rewrite IH, app_assoc_s. reflexivity. }
    destruct (Ascii.eqb c sep) eqn:Hsep; cbn [andb].
    + destruct inQuotes; cbn [negb].
      * rewrite IH, app_assoc_s. reflexivity.
      * apply Ascii.eqb_eq in Hsep. subst c.
        rewrite join_cons by apply scan_nonempty.
        rewrite IH. reflexivity.
    + rewrite IH, app_assoc_s. reflexivity.
Qed.

Lemma length_scan (sep : ascii) (rest : string) :
  forall inQuotes tok,
    length (scan sep rest inQuotes tok) = S (unquotedSeps sep rest inQuotes).
Proof.
  induction rest as [|c rest IH]; intros inQuotes tok; simpl; [reflexivity|].
  destruct (Ascii.eqb c dquote); [apply IH|].
  destruct (Ascii.eqb c sep && negb inQuotes); simpl; now rewrite IH.
Qed.

Lemma scan_inside_quotes (sep : ascii) (rest : string) :
  forall tok, hasByte dquote rest = false ->
    scan sep rest true tok = [tok ++ rest].
Proof.
  induction rest as [|c rest IH]; intros tok Hq; simpl.
  - now rewrite app_empty_r.
  - simpl in Hq. apply orb_false_iff in Hq. destruct Hq as [Hc Hrest].
    rewrite Hc, andb_false_r. rewrite (IH _ Hrest), app_assoc_s. reflexivity.
Qed.

Lemma splitLoop_total (trim : string -> string) (s : string) (sep : ascii) :
  splitLoop trim s sep s 0 [] 0 0 false = Some (map trim (tokens sep s)).
Proof.
  exact (splitLoop_scan trim sep s EmptyString EmptyString [] false).
Qed.

(** C7: for every input string and delimiter byte, [splitIgnoreQuoted]
    returns (it never fails, whatever the quotes) the trimmed tokens of the
    left-to-right scan that toggles an inside-quotes flag at every double
    quote and ends a token at every delimiter outside quotes.  The quotes
    stay in the tokens: joined with the delimiter the untrimmed tokens give
    the input back.  There is one token more than there are delimiters
    outside quotes; no token starts or ends with white space; after an
    unmatched quote the rest of the input is one token; the empty input
    gives exactly one empty token. *)
Theorem splitIgnoreQuoted_quoted_aware (s : string) (sep : ascii) :
  splitIgnoreQuoted s sep = Some (map TrimSpace (tokens sep s))
  /\ join sep (tokens sep s) = s
  /\ length (tokens sep s) = S (unquotedSeps sep s false)
  /\ Forall (fun t => leadingSpace t = false /\ trailingSpace t = false)
       (map TrimSpace (tokens sep s))
  /\ (forall rest tok, hasByte dquote rest = false ->
        scan sep rest true tok = [tok ++ rest])
  /\ splitIgnoreQuoted EmptyString sep = Some [EmptyString].
Proof.
  split; [apply splitLoop_total|].
  split; [apply join_scan|].
  split; [apply length_scan|].
  split.
  { apply List.Forall_forall. intros t Ht. apply in_map_iff in Ht.
    destruct Ht as (raw & <- & _). apply TrimSpace_trimmed. }
  split; [intros rest tok; apply scan_inside_quotes|].
  reflexivity.
Qed.

(** The first revision of the tokenizer returns the same tokens untrimmed. *)
Lemma splitIgnoreQuotedRaw_tokens (s : string) (sep : ascii) :
  splitIgnoreQuotedRaw s sep = Some (tokens sep s).
Proof.
  unfold splitIgnoreQuotedRaw. rewrite splitLoop_total. now rewrite map_id.
Qed.

Example split_tag :
  splitIgnoreQuoted "expiry, duration! ,minutes" ","%char
  = Some ["expiry"; "duration!"; "minutes"].
Proof. reflexivity. Qed.

Example split_quoted_argument :
  splitIgnoreQuoted ("equals," ++ quoted "a,b") ","%char
  = Some ["equals"; quoted "a,b"].
Proof. reflexivity. Qed.

Example split_unmatched_quote :
  splitIgnoreQuoted ("a," ++ String dquote "b,c") ","%char
  = Some ["a"; String dquote "b,c"].
Proof. reflexivity. Qed.

Example trim_unicode_space :
  TrimSpace (bytes [32; 226; 128; 131]%nat ++ "a b" ++ bytes [194; 160; 9; 10]%nat)
  = "a b".
Proof. reflexivity. Qed.

(** ** The option dispatcher *)

Lemma optionParts_cons (opt : string) :
  optionParts opt = optionName opt :: optionArgs opt.
Proof.
  unfold optionName, optionArgs, optionParts, tokens.
  destruct (scan ","%char opt false EmptyString) eqn:E; [|reflexivity].
  now apply scan_nonempty in E.
Qed.

Lemma applyOption_dispatch (L : Library) (field : Field) (value : value)
    (opt fieldName : string) :
  applyOption L field value opt fieldName
  = dispatch L field value (modifiedOf (optionName opt)) (invertedOf (optionName opt))
      (optionName opt) (optionArgs opt) fieldName.
Proof.
  unfold applyOption, splitIgnoreQuoted. rewrite splitLoop_total.
  fold (optionParts opt). now rewrite optionParts_cons.
Qed.

Ltac not_an_operation H :=
  repeat match goal with
  | |- context [String.eqb ?m ?x] =>
      let E := fresh "E" in
      destruct (String.eqb m x) eqn:E;
      [ apply String.eqb_eq in E; exfalso; apply H; rewrite E; simpl; tauto | ]
  end.

Lemma dispatch_default (L : Library) (field : Field) (value : value)
    (modified : string) (inverted : bool) (name : string) (args : list string)
    (fieldName : string) :
  ~ In modified definedOperations ->
  dispatch L field value modified inverted name args fieldName
  = Abort (UnknownTagOption name).
Proof.
  intros Hnot. unfold dispatch. not_an_operation Hnot. reflexivity.
Qed.

Lemma empty_not_defined : ~ In EmptyString definedOperations.
Proof. simpl. intuition discriminate. Qed.

Lemma defined_no_marker (name : string) :
  In name definedOperations -> endsWithBang name = false.
Proof.
  simpl. intros H.
  repeat (destruct H as [<-|H]; [reflexivity|]). destruct H.
Qed.

Lemma modifiedOf_not_defined (name : string) :
  ~ In (stripMarker name) definedOperations ->
  ~ In (modifiedOf name) definedOperations.
Proof.
  unfold stripMarker, modifiedOf.
  destruct (endsWithBang name); [tauto|]. intros _. apply empty_not_defined.
Qed.

Lemma modifiedOf_plain (name : string) :
  endsWithBang name = false -> modifiedOf name = EmptyString.
Proof. unfold modifiedOf. now intros ->. Qed.

Lemma applyOption_plain (L : Library) (field : Field) (value : value)
    (opt fieldName : string) :
  endsWithBang (optionName opt) = false ->
  applyOption L field value opt fieldName = Abort (UnknownTagOption (optionName opt)).
Proof.
  intros H. rewrite applyOption_dispatch, (modifiedOf_plain _ H).
  apply dispatch_default, empty_not_defined.
Qed.

Lemma processTag_abort (L : Library) (field : Field) (value : value)
    (opt : string) (rest : list string) (fieldName : string) (p : panic) :
  applyOption L (stripPointer field) value opt fieldName = Abort p ->
  processTag L field value (opt :: rest) fieldName = (stripPointer field, Panic p).
Proof. unfold processTag. simpl. now intros ->. Qed.

Lemma processTag_plain (L : Library) (field : Field) (value : value)
    (opt : string) (rest : list string) (fieldName : string) :
  endsWithBang (optionName opt) = false ->
  processTag L field value (opt :: rest) fieldName
  = (stripPointer field, Panic (UnknownTagOption (optionName opt))).
Proof. intros H. now apply processTag_abort, applyOption_plain. Qed.

Lemma processField_resolve (L : Library) (field : Field) (metaData : StructField)
    (data : gmap string value) :
  processField L field metaData data
  = match declaredName metaData with
    | None => (field, Ok tt)
    | Some name =>
        match data !! ToLower L name with
        | Some value => processTag L field value (clauseChain metaData) name
        | None => (setZero field, Ok tt)
        end
    end.
Proof.
  unfold processField, declaredName, excluded, clauseChain, splitIgnoreQuoted.
  rewrite splitLoop_total. fold (optionParts (jsonTag metaData)).
  rewrite optionParts_cons.
  destruct (String.eqb (optionName (jsonTag metaData)) "-"); reflexivity.
Qed.

(** ** The field resolver *)

Lemma processFields_step (L : Library) (metaData : StructField) (field field' : Field)
    (after : list (StructField * Field)) (data : gmap string value) :
  canSet metaData = true ->
  processField L field metaData data = (field', Ok tt) ->
  processFields L ((metaData, field) :: after) data
  = ((metaData, field') :: (processFields L after data).1,
     (processFields L after data).2).
Proof.
  intros Hset Hfield. simpl. rewrite Hset, Hfield.
  now destruct (processFields L after data).
Qed.

Lemma processFields_panic (L : Library) (metaData : StructField) (field field' : Field)
    (after : list (StructField * Field)) (data : gmap string value) (p : panic) :
  canSet metaData = true ->
  processField L field metaData data = (field', Panic p) ->
  processFields L ((metaData, field) :: after) data
  = ((metaData, field') :: after, Panic p).
Proof. intros Hset Hfield. simpl. now rewrite Hset, Hfield. Qed.

(** C1: a field that has a declared name which, folded to lower case, is no
    key of the document is set to the zero value of its type, and the call
    returns nil, whatever the clause chain of the field is; [Unmarshal]'s
    loop over the fields then goes on with the next field. *)
Theorem absent_key_zeroes_field (L : Library) (field : Field)
    (metaData : StructField) (data : gmap string value) (name : string) :
  declaredName metaData = Some name ->
  data !! ToLower L name = None ->
  processField L field metaData data = (setZero field, Ok tt)
  /\ fcontent (setZero field) = Zero (ftype field)
  /\ (forall after, canSet metaData = true ->
        processFields L ((metaData, field) :: after) data
        = ((metaData, setZero field) :: (processFields L after data).1,
           (processFields L after data).2)).
Proof.
  intros Hname Habsent.
  assert (H : processField L field metaData data = (setZero field, Ok tt)).
  { rewrite processField_resolve, Hname, Habsent. reflexivity. }
  split; [exact H|]. split; [reflexivity|].
  intros after Hset. now apply processFields_step.
Qed.

Lemma absent_key_zeroes_field_witness :
  processField sampleLibrary (int64Field 7)
    expiryField ∅
  = (int64Field 0, Ok tt).
Proof.
  refine (proj1 (absent_key_zeroes_field sampleLibrary _ expiryField ∅ "expiry" _ _)).
  - reflexivity.
  - reflexivity.
Defined.

(** C4, as amended: a clause whose name, without its negation marker, is
    none of the defined operations makes the dispatcher panic whenever the
    dispatcher reaches it, for every field and every current value.  The
    panic is not one of the errors the package returns; it ends
    [processTag], and with it the loop of [Unmarshal] over the fields: the
    fields after this one are left as they were. *)
Theorem unknown_clause_panics_when_reached (L : Library) (field : Field)
    (value : value) (opt : string) (rest : list string) (fieldName : string) :
  ~ In (stripMarker (optionName opt)) definedOperations ->
  applyOption L field value opt fieldName = Abort (UnknownTagOption (optionName opt))
  /\ processOptions L field value (opt :: rest) fieldName
     = (field, Panic (UnknownTagOption (optionName opt)))
  /\ (forall metaData field0 data after,
        canSet metaData = true ->
        declaredName metaData = Some fieldName ->
        data !! ToLower L fieldName = Some value ->
        clauseChain metaData = opt :: rest ->
        processFields L ((metaData, field0) :: after) data
        = ((metaData, stripPointer field0) :: after,
           Panic (UnknownTagOption (optionName opt)))).
Proof.
  intros Hunknown.
  assert (Happly : forall f, applyOption L f value opt fieldName
                             = Abort (UnknownTagOption (optionName opt))).
  { intros f. rewrite applyOption_dispatch.
    now apply dispatch_default, modifiedOf_not_defined. }
  split; [apply Happly|]. split.
  - simpl. now rewrite Happly.
  - intros metaData field0 data after Hset Hname Hkey Hchain.
    apply processFields_panic; [exact Hset|].
    rewrite processField_resolve, Hname, Hkey, Hchain.
    apply processTag_abort, Happly.
Qed.

Lemma unknown_clause_panics_when_reached_witness :
  processOptions sampleLibrary (int64Field 7) (VFloat64 30) ["bogus!"; "duration!"] "expiry"
  = (int64Field 7, Panic (UnknownTagOption "bogus!")).
Proof.
  refine (proj1 (proj2 (unknown_clause_panics_when_reached sampleLibrary (int64Field 7)
                          (VFloat64 30) "bogus!" ["duration!"] "expiry" _))).
  simpl. intuition discriminate.
Defined.

(** C4 does not hold for every document: for the empty document a field
    with an unknown clause is set to zero and the decode succeeds. *)
Lemma unknown_clause_absent_key_succeeds :
  clauseChain bogusField = ["bogus"]
  /\ existsb (String.eqb (stripMarker "bogus")) definedOperations = false
  /\ processFields sampleLibrary [(bogusField, int64Field 7)] ∅
     = ([(bogusField, int64Field 0)], Ok tt).
Proof. repeat split. Qed.

(** C2, which the code violates: the specification lets a clause with a
    defined operation name and no negation marker apply that operation and
    never treats it as unrecognized.  In the code [modified] is assigned
    only when the clause name ends with the negation marker, so for a clause
    with one of the defined operation names and no marker the [switch] runs
    on the empty string and takes its default case: [processTag] panics with
    the unknown-tag-option message, at whatever place of the chain the clause
    stands and whatever the field and the current value are. *)
Theorem defined_name_without_marker_panics (L : Library) (field : Field)
    (value : value) (opt : string) (rest : list string) (fieldName : string) :
  In (optionName opt) definedOperations ->
  applyOption L field value opt fieldName = Abort (UnknownTagOption (optionName opt))
  /\ processTag L field value (opt :: rest) fieldName
     = (stripPointer field, Panic (UnknownTagOption (optionName opt))).
Proof.
  intros Hdef. apply defined_no_marker in Hdef.
  split; [now apply applyOption_plain|now apply processTag_plain].
Qed.

Lemma defined_name_without_marker_panics_witness :
  processTag sampleLibrary boolField (VFloat64 1) ["contains"] "present"
  = (boolField, Panic (UnknownTagOption "contains")).
Proof.
  refine (proj2 (defined_name_without_marker_panics sampleLibrary boolField
                   (VFloat64 1) "contains" [] "present" _)).
  simpl. tauto.
Defined.

(** C3, which the code violates: the specification lets [empty] without
    marker reset the field on a zero value and halt the chain, so that a
    trailing clause does not run.  In the code a chain that starts with
    the clause [empty] (no marker) panics at that clause, for every current
    value, zero or not: the field is not reset to its zero value (a nil
    pointer field is left allocated), and nil is not returned.  The trailing
    clause does not run, but because of the panic. *)
Theorem empty_without_marker_panics (L : Library) (field : Field) (value : value)
    (rest : list string) (fieldName : string) :
  processTag L field value ("empty" :: rest) fieldName
  = (stripPointer field, Panic (UnknownTagOption "empty"))
  /\ processTag L {| ftype := TPtr TFloat64; fcontent := CNil |} (VFloat64 0)
       ["empty"; "add,1"] fieldName
     = ({| ftype := TPtr TFloat64; fcontent := CPtr (CVal (VFloat64 0)) |},
        Panic (UnknownTagOption "empty"))
  /\ setZero {| ftype := TPtr TFloat64; fcontent := CNil |}
     = {| ftype := TPtr TFloat64; fcontent := CNil |}.
Proof.
  split; [|split].
  - exact (processTag_plain L field value "empty" rest fieldName eq_refl).
  - exact (processTag_plain L _ (VFloat64 0) "empty" ["add,1"] fieldName eq_refl).
  - reflexivity.
Qed.

(** C5, which the code violates: the specification lets every [contains]
    clause replace the current value with true.  In the code the clause
    [contains] (no marker) never reaches the case that sets the current
    value to true: [processTag] panics with the unknown-tag-option message. *)
Theorem contains_without_marker_panics (L : Library) (field : Field) (value : value)
    (rest : list string) (fieldName : string) :
  applyOption L field value "contains" fieldName = Abort (UnknownTagOption "contains")
  /\ processTag L field value ("contains" :: rest) fieldName
     = (stripPointer field, Panic (UnknownTagOption "contains")).
Proof.
  split.
  - exact (applyOption_plain L field value "contains" fieldName eq_refl).
  - exact (processTag_plain L field value "contains" rest fieldName eq_refl).
Qed.

(** C6, which the code violates: the specification lets [nilslice] turn nil
    into an empty sequence, which the inverted clause turns back into nil.
    In the code the clause [nilslice] (no marker) panics for the same
    reason as every clause without marker.  The case it would reach does
    not build an empty slice either: it stores the slice type that
    [reflect.SliceOf] returns, and the inverted clause leaves that value as
    it is, so the two do not compose back to nil. *)
Theorem nilslice_without_marker_panics (L : Library) (elem : rtype)
    (rest : list string) (fieldName : string) :
  let field := {| ftype := TSlice elem; fcontent := CNil |} in
  processTag L field VNil ("nilslice" :: rest) fieldName
  = (field, Panic (UnknownTagOption "nilslice"))
  /\ dispatch L field VNil "nilslice" false "nilslice" [] fieldName
     = Continue (VType (TSlice elem))
  /\ applyOption L field (VType (TSlice elem)) "nilslice!" fieldName
     = Continue (VType (TSlice elem)).
Proof.
  intros field. split; [|split].
  - exact (processTag_plain L field VNil "nilslice" rest fieldName eq_refl).
  - reflexivity.
  - rewrite applyOption_dispatch. reflexivity.
Qed.

(** C8, which the code violates: the specification lets [equals] with an
    argument yield the typed comparison, true for the quoted argument 5 on
    the integer 5.  In the code the clause [equals] with an argument and
    no marker panics like every clause without marker, so that on the
    integer 5 the clause [equals] with the quoted argument 5 yields no
    boolean at all. *)
Theorem equals_without_marker_panics (L : Library) (field : Field) (value : value)
    (rest : list string) (fieldName : string) :
  applyOption L field value ("equals," ++ quoted "5") fieldName
  = Abort (UnknownTagOption "equals")
  /\ processTag L field (VInt 5) (("equals," ++ quoted "5") :: rest) fieldName
     = (stripPointer field, Panic (UnknownTagOption "equals")).
Proof.
  split.
  - exact (applyOption_plain L field value ("equals," ++ quoted "5") fieldName eq_refl).
  - exact (processTag_plain L field (VInt 5) ("equals," ++ quoted "5") rest fieldName
             eq_refl).
Qed.

(** ** Arithmetic *)

Example ParseInt_range :
  ParseInt "-9223372036854775808" = Some minInt64
  /\ ParseInt "9223372036854775808" = None
  /\ ParseInt "+5" = Some 5
  /\ ParseInt "2.5" = None
  /\ ParseInt EmptyString = None.
Proof. repeat split. Qed.

Example wrap64_overflow :
  wrap64 (maxInt64 + 1) = minInt64 /\ wrap64 (minInt64 ÷ -1) = minInt64.
Proof. split; reflexivity. Qed.









(** ** What the cases of the dispatcher do when they are reached *)

Lemma setZero_stripPointer (field : Field) :
  setZero (stripPointer field) = setZero field.
Proof. reflexivity. Qed.

(** The inverted [empty] clause without argument: on a value that is not
    zero it resets the field to its zero value and returns nil without
    running the clauses after it; on a zero value the chain goes on with
    the value unchanged. *)
Theorem inverted_empty_clears_and_stops (L : Library) (field : Field) (value : value)
    (rest : list string) (fieldName : string) (zero : bool) :
  IsZero value = Some zero ->
  processTag L field value ("empty!" :: rest) fieldName
  = if zero
    then processOptions L (stripPointer field) value rest fieldName
    else (setZero field, Ok tt).
Proof.
  intros Hzero. unfold processTag. cbn [processOptions].
  rewrite applyOption_dispatch.
  change (modifiedOf (optionName "empty!")) with "empty".
  change (invertedOf (optionName "empty!")) with true.
  change (optionArgs "empty!") with (@nil string).
  unfold dispatch. cbn. rewrite Hzero. destruct zero; reflexivity.
Qed.

Lemma inverted_empty_clears_and_stops_witness :
  processTag sampleLibrary (int64Field 7) (VFloat64 3) ["empty!"; "bogus"] "n"
  = (int64Field 0, Ok tt).
Proof.
  exact (inverted_empty_clears_and_stops sampleLibrary (int64Field 7) (VFloat64 3)
           ["bogus"] "n" false eq_refl).
Defined.

(** The inverted [nilslice] clause turns a non-nil empty sequence into nil
    and leaves a sequence with elements as it is. *)
Theorem inverted_nilslice_on_sequence (L : Library) (field : Field)
    (elems : list value) (fieldName : string) :
  applyOption L field (VSlice elems) "nilslice!" fieldName
  = Continue (if Nat.eqb (length elems) 0 then VNil else VSlice elems).
Proof. rewrite applyOption_dispatch. destruct elems; reflexivity. Qed.


(** The inverted [equals] clause with the quoted argument 5 yields false on
    the integer 5 and true on another integer, as a [reflect.Value]. *)
Theorem inverted_equals_negates (L : Library) (field : Field) (v : Z)
    (fieldName : string) :
  Unquote L (quoted "5") = Some "5" ->
  applyOption L field (VInt v) ("equals!," ++ quoted "5") fieldName
  = Continue (VValue (VBool (negb (v =? 5)))).
Proof.
  intros Hq. rewrite applyOption_dispatch.
  change (modifiedOf (optionName ("equals!," ++ quoted "5"))) with "equals".
  change (invertedOf (optionName ("equals!," ++ quoted "5"))) with true.
  change (optionArgs ("equals!," ++ quoted "5")) with [quoted "5"].
  unfold dispatch. cbn -[quoted Atoi]. rewrite Hq.
  change (Atoi "5") with (Some 5). now destruct (v =? 5).
Qed.

Lemma inverted_equals_negates_witness :
  applyOption sampleLibrary boolField (VInt 5) ("equals!," ++ quoted "5") "n"
  = Continue (VValue (VBool false)).
Proof.
  exact (inverted_equals_negates sampleLibrary boolField 5 "n" eq_refl).
Defined.

Lemma operatorOf_no_marker (name : string) (o : operator) :
  operatorOf name = Some o -> endsWithBang name = false.
Proof.
  unfold operatorOf. intros H.
  repeat match type of H with
  | (if String.eqb name ?x then _ else _) = _ =>
      let E := fresh "E" in
      destruct (String.eqb name x) eqn:E;
      [apply String.eqb_eq in E; now subst name|]
  end.
  discriminate.
Qed.

(** No spelling of an arithmetic clause reaches the arithmetic through the
    dispatcher: without the negation marker the clause is an unknown tag
    option, and with it [performArithmeticOperation] receives the name with
    the marker and knows no such operation. *)
Theorem arithmetic_clause_panics (L : Library) (field : Field) (value : value)
    (opt fieldName : string) :
  In (stripMarker (optionName opt)) ["add"; "subtract"; "multiply"; "divide"] ->
  applyOption L field value opt fieldName
  = Abort (if endsWithBang (optionName opt)
           then UnknownNumericalOperation (optionName opt)
           else UnknownTagOption (optionName opt)).
Proof.
  intros Hop. unfold stripMarker in Hop.
  destruct (endsWithBang (optionName opt)) eqn:Hbang.
  - rewrite applyOption_dispatch. unfold modifiedOf, invertedOf. rewrite Hbang.
    assert (Hnone : operatorOf (optionName opt) = None).
    { destruct (operatorOf (optionName opt)) as [o|] eqn:E; [|reflexivity].
      apply operatorOf_no_marker in E. congruence. }
    assert (Hrun : forall inverted,
               performArithmeticOperation L value (optionName opt :: optionArgs opt)
                 inverted fieldName
               = Panic (UnknownNumericalOperation (optionName opt))).
    { intros inverted. unfold performArithmeticOperation. now rewrite Hnone. }
    simpl in Hop.
    destruct Hop as [<-|[<-|[<-|[<-|[]]]]]; unfold dispatch;
      cbn -[performArithmeticOperation optionName optionArgs]; now rewrite Hrun.
  - now apply applyOption_plain.
Qed.

Lemma arithmetic_clause_panics_witness :
  applyOption sampleLibrary (int64Field 0) (VInt 3) "add!,2" "n"
  = Abort (UnknownNumericalOperation "add!")
  /\ applyOption sampleLibrary (int64Field 0) (VInt 3) "add,2" "n"
     = Abort (UnknownTagOption "add").
Proof.
  split.
  - refine (arithmetic_clause_panics sampleLibrary (int64Field 0) (VInt 3) "add!,2" "n" _).
    simpl. tauto.
  - refine (arithmetic_clause_panics sampleLibrary (int64Field 0) (VInt 3) "add,2" "n" _).
    simpl. tauto.
Defined.


(** ** The entry point *)

Lemma lowerKey_lower (L : Library) (m : gmap string value) (k : string) :
  (forall k' v, m !! k' = Some v -> ToLower L k' = k') ->
  lowerKey L m k = m.
Proof.
  intros Hlower. unfold lowerKey.
  destruct (m !! k) as [v|] eqn:Hk; [|reflexivity].
  rewrite (Hlower k v Hk), insert_delete_eq. now apply insert_id.
Qed.

Lemma lowerKeys_lower (L : Library) (order : list string) (m : gmap string value) :
  (forall k v, m !! k = Some v -> ToLower L k = k) ->
  lowerKeys L order m = m.
Proof.
  intros Hlower. unfold lowerKeys.
  induction order as [|k order IH]; [reflexivity|].
  simpl. now rewrite lowerKey_lower.
Qed.

(** [Unmarshal] returns the error of the JSON decoder before any field is
    touched; on a document whose keys are in lower case already, the folding
    loop changes nothing, in whatever order it ranges over the keys, and the
    fields are processed against the document as decoded. *)
Theorem Unmarshal_runs_field_loop (L : Library) (data : string) (order : list string)
    (v : list (StructField * Field)) :
  (JSONObject L data = None -> Unmarshal L data order v = (v, Err ErrJSON))
  /\ (forall parsedData,
        JSONObject L data = Some parsedData ->
        (forall k x, parsedData !! k = Some x -> ToLower L k = k) ->
        Unmarshal L data order v = processFields L v parsedData).
Proof.
  unfold Unmarshal. split.
  - now intros ->.
  - intros parsedData -> Hlower. now rewrite lowerKeys_lower.
Qed.
